(** * pathvalidate: [validate_filename] and [sanitize_filename]

    A shallow embedding of [pathvalidate/__init__.py] and the properties of
    its two entry points.

    Python text is a sequence of Unicode code points; a code point is a
    natural number ([N]) and a text is a list of them.  The helper [u] turns
    an ASCII literal into such a text so that examples stay readable. *)

From Stdlib Require Import List PeanoNat NArith Bool Lia Ascii String.
Import ListNotations.
Local Open Scope N_scope.
Local Open Scope list_scope.

Set Implicit Arguments.

(** ** Text *)

Definition codepoint := N.
Definition str := list codepoint.

Definition u (s : string) : str := map N_of_ascii (list_ascii_of_string s).

(** ** What a call does: it returns a value or raises *)

(** The exceptions that the two functions can raise.
    - [ValueError_null_path] is [ValueError("null path")].
    - [ValueError_invalid_char m] is
      [ValueError("invalid char found in the file path: '%s'" % re.escape(m))]
      where [m] is [match.group()], the text matched by [re.search].
    - [TemplateError] is the exception that [re]'s replacement-template parser
      raises for a malformed template ([re.error], or [IndexError] for an
      unknown group name). *)
Inductive exn : Type :=
| ValueError_null_path
| ValueError_invalid_char (m : str)
| TemplateError.

Inductive outcome (A : Type) : Type :=
| Return (a : A)
| Raise (e : exn).
Arguments Return {A} a.
Arguments Raise {A} e.

Definition bind {A B : Type} (x : outcome A) (f : A -> outcome B) : outcome B :=
  match x with
  | Return a => f a
  | Raise e => Raise e
  end.

(** ** Python's [str.strip()] *)

Module Py.

(** [str.isspace] for one code point: CPython's [_PyUnicode_IsWhitespace]. *)
Definition isspace (c : codepoint) : bool :=
  ((0x09 <=? c) && (c <=? 0x0D))
  || ((0x1C <=? c) && (c <=? 0x20))
  || (c =? 0x85) || (c =? 0xA0) || (c =? 0x1680)
  || ((0x2000 <=? c) && (c <=? 0x200A))
  || (c =? 0x2028) || (c =? 0x2029) || (c =? 0x202F)
  || (c =? 0x205F) || (c =? 0x3000).

Fixpoint lstrip (s : str) : str :=
  match s with
  | [] => []
  | c :: rest => if isspace c then lstrip rest else s
  end.

Definition rstrip (s : str) : str := rev (lstrip (rev s)).

(** [s.strip()]: leading and trailing whitespace removed. *)
Definition strip (s : str) : str := rstrip (lstrip s).

End Py.

(** ** [dataproperty.is_empty_string]

    The function comes from the [dataproperty] package, which the module
    imports: [len(value.strip()) == 0] for a text value, so a text of
    whitespace only counts as empty. *)
Module dataproperty.

Definition is_empty_string (value : str) : bool :=
  Nat.eqb (List.length (Py.strip value)) 0.

End dataproperty.

(** ** The module's character set *)

Definition backslash : codepoint := 92.

(** [__INVALID_PATH_CHARS]: the literal holds eight code points, backslash,
    colon, asterisk, question mark, double quote, less-than, greater-than and
    vertical bar.  Backslash-colon is not an escape sequence of Python, so the
    backslash stays a character of the text. *)
Definition __INVALID_PATH_CHARS : str :=
  [backslash; 58; 42; 63; 34; 60; 62; 124].

(** ** The part of [re] that the module uses *)

Module re.

(** Membership in the character class ["[%s]" % re.escape(chars)]: escaping
    keeps every character of [chars] a literal member of the class, so the
    class matches exactly the code points of [chars]. *)
Definition in_class (chars : str) (c : codepoint) : bool :=
  existsb (N.eqb c) chars.

(** [re.search("[...]", s)]: the leftmost code point of [s] in the class,
    as the one-character text [match.group()]; [None] when nothing
    matches. *)
Fixpoint search (chars : str) (s : str) : option str :=
  match s with
  | [] => None
  | c :: rest => if in_class chars c then Some [c] else search chars rest
  end.

(** *** Replacement templates

    [pattern.sub(repl, s)] treats a text [repl] that holds a backslash as a
    template and parses it before it looks at [s] (CPython:
    [parse_template] of the [re] package).  The pattern here has no capture
    group, so the only group a template may name is group 0, the whole
    match.  A parsed template is a list of pieces.  The parser below is
    the one of current CPython, where an unknown escape of an ASCII letter
    and a group name that is not a plain decimal number are errors; a
    template without backslash and the escapes of [escapes] and of group 0
    read the same in every version. *)
Inductive piece : Type :=
| Lit (c : codepoint)   (* a literal code point *)
| Group0.               (* the text of the match *)

(** Where the parser stands inside an escape. *)
Inductive tstate : Type :=
| Plain                      (* outside any escape *)
| Esc                        (* after a backslash *)
| GOpen                      (* after backslash-g *)
| GName (seen : bool)        (* in the group name; [seen]: a digit was read *)
| Zero                       (* after backslash-0 *)
| ZeroD (d : N)              (* after backslash-0 and one octal digit *)
| Dig1 (d : N)               (* after backslash and one digit 1-9 *)
| Dig2 (d1 d2 : N).          (* after backslash and two digits *)

Definition is_digit (c : codepoint) : bool := (48 <=? c) && (c <=? 57).
Definition is_octdigit (c : codepoint) : bool := (48 <=? c) && (c <=? 55).
Definition is_asciiletter (c : codepoint) : bool :=
  ((65 <=? c) && (c <=? 90)) || ((97 <=? c) && (c <=? 122)).

(** The table [ESCAPES] of the parser: the letters a, b, f, n, r, t, v and
    the backslash itself. *)
Definition escapes (c : codepoint) : option codepoint :=
  if c =? 97 then Some 7
  else if c =? 98 then Some 8
  else if c =? 102 then Some 12
  else if c =? 110 then Some 10
  else if c =? 114 then Some 13
  else if c =? 116 then Some 9
  else if c =? 118 then Some 11
  else if c =? backslash then Some backslash
  else None.

Definition step_plain (c : codepoint) : tstate * list piece :=
  if c =? backslash then (Esc, []) else (Plain, [Lit c]).

(** One code point of the template; [None] is a parse error. *)
Definition step (st : tstate) (c : codepoint) : option (tstate * list piece) :=
  match st with
  | Plain => Some (step_plain c)
  | Esc =>
      if c =? 103 (* g *) then Some (GOpen, [])
      else if c =? 48 (* 0 *) then Some (Zero, [])
      else if is_digit c then Some (Dig1 (c - 48), [])
      else match escapes c with
           | Some x => Some (Plain, [Lit x])
           | None =>
               if is_asciiletter c then None   (* bad escape *)
               else Some (Plain, [Lit backslash; Lit c])
           end
  | GOpen =>
      if c =? 60 (* < *) then Some (GName false, []) else None
  | GName seen =>
      (* only a decimal name is a group number, and only group 0 exists *)
      if c =? 48 then Some (GName true, [])
      else if c =? 62 (* > *) then
        if seen then Some (Plain, [Group0]) else None
      else None
  | Zero =>
      (* an octal escape of up to three digits, the first of them 0 *)
      if is_octdigit c then Some (ZeroD (c - 48), [])
      else
        let '(st', out) := step_plain c in
        Some (st', Lit (N.land 0 255) :: out)
  | ZeroD d =>
      if is_octdigit c then
        Some (Plain, [Lit (N.land (8 * d + (c - 48)) 255)])
      else
        let '(st', out) := step_plain c in
        Some (st', Lit (N.land d 255) :: out)
  | Dig1 d =>
      (* a lone digit 1-9 names a group that the pattern lacks *)
      if is_digit c then Some (Dig2 d (c - 48), []) else None
  | Dig2 d1 d2 =>
      if (d1 <=? 7) && (d2 <=? 7) && is_octdigit c then
        let v := 64 * d1 + 8 * d2 + (c - 48) in
        if 255 <? v then None else Some (Plain, [Lit v])
      else None
  end.

(** End of the template. *)
Definition finish (st : tstate) : option (list piece) :=
  match st with
  | Plain => Some []
  | Zero => Some [Lit (N.land 0 255)]
  | ZeroD d => Some [Lit (N.land d 255)]
  | Esc | GOpen | GName _ | Dig1 _ | Dig2 _ _ => None
  end.

Fixpoint parse_from (st : tstate) (t : str) : option (list piece) :=
  match t with
  | [] => finish st
  | c :: rest =>
      match step st c with
      | None => None
      | Some (st', out) =>
          match parse_from st' rest with
          | None => None
          | Some ps => Some (out ++ ps)
          end
      end
  end.

Definition parse_template (t : str) : option (list piece) :=
  parse_from Plain t.

(** [match.expand] for a match of the one code point [m]. *)
Definition expand (tpl : list piece) (m : codepoint) : str :=
  flat_map (fun p => match p with Lit c => [c] | Group0 => [m] end) tpl.

(** Every code point of [s] in the class replaced by [f], the others kept. *)
Definition replace_each (chars : str) (f : codepoint -> str) (s : str) : str :=
  flat_map (fun c => if in_class chars c then f c else [c]) s.

(** [re.compile("[...]").sub(repl, s)].  A [repl] without backslash is used
    as it stands; any other is parsed first, and a template that does not
    parse raises whatever [s] is. *)
Definition sub (chars : str) (repl : str) (s : str) : outcome str :=
  if existsb (N.eqb backslash) repl then
    match parse_template repl with
    | None => Raise TemplateError
    | Some tpl => Return (replace_each chars (expand tpl) s)
    end
  else Return (replace_each chars (fun _ => repl) s).

End re.

(** ** [validate_filename] *)

Definition validate_filename (filename : str) : outcome unit :=
  if dataproperty.is_empty_string filename then
    Raise ValueError_null_path
  else
    match re.search __INVALID_PATH_CHARS filename with
    | Some m => Raise (ValueError_invalid_char m)
    | None => Return tt
    end.

(** ** [sanitize_filename] *)

(** The default of the parameter [replacement_text]: the empty text. *)
Definition default_replacement_text : str := [].

Definition sanitize_filename (filename : str) (replacement_text : str)
  : outcome str :=
  let filename := Py.strip filename in
  re.sub __INVALID_PATH_CHARS replacement_text filename.

(** ** [replace_symbol] *)

(** The characters of the second class of [replace_symbol]: space, comma,
    period, percent sign, the two parentheses and the forward slash. *)
Definition symbol_chars : str := [32; 44; 46; 37; 40; 41; 47].

(** [sanitize_filename] first, then a second substitution with the same
    replacement text over the class of [symbol_chars].  A call of
    [sanitize_filename] that returns returns a text, so the test
    [fname is None] of the source never holds and has no branch here. *)
Definition replace_symbol (filename : str) (replacement_text : str)
  : outcome str :=
  bind (sanitize_filename filename replacement_text)
       (fun fname => re.sub symbol_chars replacement_text fname).

(** ** Vocabulary of the statements *)

(** ASCII control code points: 0x00 to 0x1F, and 0x7F. *)
Definition is_control (c : codepoint) : bool := (c <=? 0x1F) || (c =? 0x7F).

(** A blank text: every code point is whitespace. *)
Definition all_space (s : str) : Prop :=
  forall c, In c s -> Py.isspace c = true.

(** One of the eight characters that the module refuses. *)
Definition invalid_char (c : codepoint) : Prop := In c __INVALID_PATH_CHARS.

(** One of the seven characters of the second class of [replace_symbol]. *)
Definition symbol_char (c : codepoint) : Prop := In c symbol_chars.

(** How many code points of a text belong to a class. *)
Definition count_in (chars : str) (s : str) : nat :=
  List.length (filter (re.in_class chars) s).

(** * Properties *)

(** ** Stripping *)

Section Strip.

Import Py.

Lemma lstrip_split (s : str) :
  exists pre, s = pre ++ lstrip s /\ all_space pre.
Proof.
  induction s as [|c rest [pre [Heq Hpre]]]; simpl.
  - exists []. split; [reflexivity | intros ? []].
  - destruct (isspace c) eqn:Hc.
    + exists (c :: pre). split.
      * simpl. f_equal. exact Heq.
      * intros d [<- | Hd]; [exact Hc | now apply Hpre].
    + exists []. split; [reflexivity | intros ? []].
Qed.

Lemma lstrip_incl (s : str) (c : codepoint) : In c (lstrip s) -> In c s.
Proof.
  destruct (lstrip_split s) as [pre [Heq _]].
  intro H. rewrite Heq. apply in_or_app. now right.
Qed.

Lemma rstrip_incl (s : str) (c : codepoint) : In c (rstrip s) -> In c s.
Proof.
  unfold rstrip. intro H.
  apply in_rev in H. apply lstrip_incl in H. now apply in_rev.
Qed.

Lemma strip_incl (s : str) (c : codepoint) : In c (strip s) -> In c s.
Proof.
  unfold strip. intro H. now apply lstrip_incl, rstrip_incl.
Qed.

Lemma lstrip_nil_iff (s : str) : lstrip s = [] <-> all_space s.
Proof.
  split.
  - intro H. destruct (lstrip_split s) as [pre [Heq Hpre]].
    rewrite H, app_nil_r in Heq. now subst pre.
  - induction s as [|c rest IH]; simpl; intro H; [reflexivity|].
    rewrite (H c (or_introl eq_refl)).
    apply IH. intros d Hd. apply H. now right.
Qed.

Lemma rstrip_nil_iff (s : str) : rstrip s = [] <-> all_space s.
Proof.
  unfold rstrip. split.
  - intro H.
    assert (Hl : lstrip (rev s) = []).
    { rewrite <- (rev_involutive (lstrip (rev s))), H. reflexivity. }
    apply lstrip_nil_iff in Hl.
    intros c Hc. apply Hl. now apply in_rev in Hc.
  - intro H.
    assert (Hl : lstrip (rev s) = []).
    { apply lstrip_nil_iff. intros c Hc. apply H. now apply in_rev. }
    now rewrite Hl.
Qed.

Lemma strip_nil_iff (s : str) : strip s = [] <-> all_space s.
Proof.
  unfold strip. rewrite rstrip_nil_iff.
  destruct (lstrip_split s) as [pre [Heq Hpre]].
  split; intros H c Hc.
  - rewrite Heq in Hc. apply in_app_or in Hc as [Hc | Hc]; auto.
  - apply H. now apply lstrip_incl.
Qed.

(** A text is empty for [dataproperty] exactly when it is blank. *)
Lemma is_empty_string_spec (s : str) :
  dataproperty.is_empty_string s = true <-> all_space s.
Proof.
  unfold dataproperty.is_empty_string.
  rewrite <- strip_nil_iff, Nat.eqb_eq. apply length_zero_iff_nil.
Qed.

End Strip.

(** ** Character classes, search and replacement *)

Section CharClass.

Variable chars : str.

Lemma in_class_In (c : codepoint) : re.in_class chars c = true <-> In c chars.
Proof.
  unfold re.in_class. rewrite existsb_exists. split.
  - intros [d [Hd Heq]]. apply N.eqb_eq in Heq. now subst d.
  - intro H. exists c. split; [exact H | apply N.eqb_refl].
Qed.

Lemma in_class_not_In (c : codepoint) :
  re.in_class chars c = false <-> ~ In c chars.
Proof.
  rewrite <- in_class_In. destruct (re.in_class chars c); split; congruence.
Qed.

Lemma search_None (s : str) :
  re.search chars s = None <-> (forall c, In c s -> ~ In c chars).
Proof.
  induction s as [|c rest IH]; simpl.
  - split; [intros _ ? [] | reflexivity].
  - destruct (re.in_class chars c) eqn:Hc.
    + split; [discriminate|].
      intro H. apply in_class_In in Hc. now destruct (H c (or_introl eq_refl)).
    + rewrite IH. apply in_class_not_In in Hc. split.
      * intros H d [<- | Hd]; auto.
      * intros H d Hd. apply H. now right.
Qed.

(** [search] finds the leftmost member of the class. *)
Lemma search_Some (s m : str) :
  re.search chars s = Some m ->
  exists pre c post,
    s = pre ++ c :: post /\ m = [c] /\ In c chars
    /\ (forall d, In d pre -> ~ In d chars).
Proof.
  induction s as [|c rest IH]; simpl; [discriminate|].
  destruct (re.in_class chars c) eqn:Hc.
  - intros [= <-]. exists [], c, rest.
    apply in_class_In in Hc. repeat split; auto; intros ? [].
  - intros H. destruct (IH H) as (pre & d & post & -> & -> & Hd & Hpre).
    exists (c :: pre), d, post. repeat split; auto.
    intros e [<- | He]; [now apply in_class_not_In | now apply Hpre].
Qed.

Lemma search_Some_iff (s : str) :
  (exists m, re.search chars s = Some m) <-> (exists c, In c s /\ In c chars).
Proof.
  split.
  - intros [m Hm].
    destruct (search_Some _ Hm) as (pre & c & post & -> & _ & Hc & _).
    exists c. split; [|exact Hc]. apply in_or_app. right. now left.
  - intros [c [Hs Hc]]. destruct (re.search chars s) as [m|] eqn:E.
    + now exists m.
    + exfalso. exact (proj1 (search_None s) E c Hs Hc).
Qed.

Lemma replace_each_app (f : codepoint -> str) (a b : str) :
  re.replace_each chars f (a ++ b)
  = re.replace_each chars f a ++ re.replace_each chars f b.
Proof. apply flat_map_app. Qed.

(** A text without a member of the class is left as it is. *)
Lemma replace_each_id (f : codepoint -> str) (s : str) :
  (forall c, In c s -> ~ In c chars) -> re.replace_each chars f s = s.
Proof.
  unfold re.replace_each.
  induction s as [|c rest IH]; simpl; intro H; [reflexivity|].
  rewrite (proj2 (in_class_not_In c) (H c (or_introl eq_refl))). simpl.
  f_equal. apply IH. intros d Hd. apply H. now right.
Qed.

(** What a literal replacement leaves in the text. *)
Lemma replace_each_In (r s : str) (c : codepoint) :
  In c (re.replace_each chars (fun _ => r) s) ->
  (In c s /\ ~ In c chars) \/ In c r.
Proof.
  unfold re.replace_each. rewrite in_flat_map.
  intros [d [Hd Hc]]. destruct (re.in_class chars d) eqn:E.
  - now right.
  - left. destruct Hc as [<- | []]. split; [exact Hd|].
    now apply in_class_not_In.
Qed.

End CharClass.

(** ** The two functions *)

(** A text without backslash is a literal replacement. *)
Lemma sub_literal (chars repl s : str) :
  ~ In backslash repl ->
  re.sub chars repl s = Return (re.replace_each chars (fun _ => repl) s).
Proof.
  intro H. unfold re.sub.
  replace (existsb (N.eqb backslash) repl) with false; [reflexivity|].
  symmetry. apply not_true_is_false. intro E. apply H.
  apply existsb_exists in E as [d [Hd Heq]].
  apply N.eqb_eq in Heq. now rewrite Heq.
Qed.

(** The parser agrees: a template without backslash is all literals. *)
Lemma parse_template_literal (repl : str) :
  ~ In backslash repl -> re.parse_template repl = Some (map re.Lit repl).
Proof.
  unfold re.parse_template.
  induction repl as [|c rest IH]; simpl; intro H; [reflexivity|].
  unfold re.step_plain.
  destruct (N.eqb_spec c backslash) as [-> | _].
  - exfalso. apply H. now left.
  - rewrite IH; [reflexivity|]. intro Hr. apply H. now right.
Qed.

Lemma sanitize_filename_literal (filename replacement_text : str) :
  ~ In backslash replacement_text ->
  sanitize_filename filename replacement_text
  = Return (re.replace_each __INVALID_PATH_CHARS (fun _ => replacement_text)
              (Py.strip filename)).
Proof. intro H. unfold sanitize_filename. now apply sub_literal. Qed.

Lemma sanitize_filename_default (filename : str) :
  sanitize_filename filename default_replacement_text
  = Return (re.replace_each __INVALID_PATH_CHARS (fun _ => [])
              (Py.strip filename)).
Proof. apply sanitize_filename_literal. intros []. Qed.

(** With the default replacement no invalid character is left. *)
Lemma sanitize_default_clean (filename y : str) :
  sanitize_filename filename default_replacement_text = Return y ->
  forall c, In c y -> ~ invalid_char c.
Proof.
  rewrite sanitize_filename_default. intros [= <-] c Hc.
  apply replace_each_In in Hc as [[_ Hc] | []]. exact Hc.
Qed.

(** [validate_filename] accepts exactly the texts that are not blank and hold
    no invalid character. *)
Lemma validate_filename_Return (filename : str) :
  validate_filename filename = Return tt <->
  dataproperty.is_empty_string filename = false
  /\ (forall c, In c filename -> ~ invalid_char c).
Proof.
  unfold validate_filename, invalid_char.
  destruct (dataproperty.is_empty_string filename).
  - split; [discriminate | intros [? _]; discriminate].
  - rewrite <- search_None.
    destruct (re.search __INVALID_PATH_CHARS filename).
    + split; [discriminate | intros [_ ?]; discriminate].
    + split; auto.
Qed.

(** ** Sanitize, then validate *)

(** Claim C1, counterexample.  The input [": :"] is not empty after trimming
    and its sanitized result, the single space [" "], is not empty; yet
    [validate_filename] rejects that result as a null path, because a blank
    text counts as empty. *)
Lemma sanitize_output_rejected :
  Py.strip (u ": :") <> []
  /\ sanitize_filename (u ": :") default_replacement_text = Return (u " ")
  /\ u " " <> []
  /\ validate_filename (u " ") = Raise ValueError_null_path.
Proof. repeat split; try reflexivity; discriminate. Qed.

(** Claim C1, amended: soundness of sanitization.  For every text [x],
    [sanitize_filename x] returns a text [y], and when [y] is not blank (not
    empty after trimming whitespace) [validate_filename y] succeeds. *)
Theorem sanitize_then_validate (x : str) :
  exists y,
    sanitize_filename x default_replacement_text = Return y
    /\ (dataproperty.is_empty_string y = false ->
        validate_filename y = Return tt).
Proof.
  eexists. split; [apply sanitize_filename_default|].
  intro Hy. apply validate_filename_Return. split; [exact Hy|].
  eapply sanitize_default_clean. apply sanitize_filename_default.
Qed.

Lemma sanitize_then_validate_witness :
  exists y,
    sanitize_filename (u " a:b ") default_replacement_text = Return y
    /\ dataproperty.is_empty_string y = false
    /\ validate_filename y = Return tt.
Proof.
  destruct (sanitize_then_validate (u " a:b ")) as [y [Hs Hv]].
  exists y. split; [exact Hs|].
  assert (He : dataproperty.is_empty_string y = false).
  { vm_compute in Hs. injection Hs as <-. reflexivity. }
  split; [exact He | exact (Hv He)].
Defined.

(** ** Sanitizing twice *)

(** Claim C2, counterexample.  Sanitizing [": a"] removes the colon and
    leaves [" a"], whose leading space only the second pass trims: the second
    pass returns ["a"]. *)
Lemma sanitize_not_idempotent :
  sanitize_filename (u ": a") default_replacement_text = Return (u " a")
  /\ bind (sanitize_filename (u ": a") default_replacement_text)
          (fun y => sanitize_filename y default_replacement_text) = Return (u "a")
  /\ u "a" <> u " a".
Proof. repeat split; try reflexivity; discriminate. Qed.

(** Claim C2, amended: a second pass of [sanitize_filename] only trims.  For
    every text [x], [sanitize_filename x] returns a text [y], and
    [sanitize_filename y] returns [y.strip()]; so the second pass returns [y]
    itself exactly when [y] has no leading or trailing whitespace. *)
Theorem sanitize_twice_strips (x : str) :
  exists y,
    sanitize_filename x default_replacement_text = Return y
    /\ sanitize_filename y default_replacement_text = Return (Py.strip y)
    /\ (sanitize_filename y default_replacement_text = Return y <-> Py.strip y = y).
Proof.
  eexists. split; [apply sanitize_filename_default|].
  set (y := re.replace_each _ _ _).
  assert (H2 : sanitize_filename y default_replacement_text = Return (Py.strip y)).
  { rewrite sanitize_filename_default. f_equal.
    apply replace_each_id. intros c Hc. apply strip_incl in Hc.
    exact (sanitize_default_clean (sanitize_filename_default x) Hc). }
  split; [exact H2|]. rewrite H2. split.
  - now intros [= ->].
  - now intros ->.
Qed.

Lemma sanitize_twice_strips_witness :
  sanitize_filename (u "a:b") default_replacement_text = Return (u "ab")
  /\ sanitize_filename (u "ab") default_replacement_text = Return (u "ab").
Proof.
  destruct (sanitize_twice_strips (u "a:b")) as [y [Hs [_ Hiff]]].
  vm_compute in Hs. injection Hs as <-.
  split; [reflexivity|]. apply Hiff. reflexivity.
Defined.

(** ** Which characters make a name invalid *)

(** Claim C3, counterexample.  The name of the letter a, the control code
    point 0x01 and the letter b holds a control code point and validates. *)
Lemma control_char_accepted :
  In 0x01 [97; 0x01; 98]
  /\ is_control 0x01 = true
  /\ validate_filename [97; 0x01; 98] = Return tt.
Proof. repeat split. simpl. auto. Qed.

(** Claim C3, amended: the invalid-character error belongs to the eight
    characters of [__INVALID_PATH_CHARS] and to nothing else.  A name fails
    with that error exactly when it is not blank and holds one of the eight;
    no ASCII control code point is among them, so a control code point never
    gets a name rejected with it. *)
Theorem invalid_char_error_iff (name : str) :
  ((exists m, validate_filename name = Raise (ValueError_invalid_char m))
   <-> (dataproperty.is_empty_string name = false
        /\ exists c, In c name /\ invalid_char c))
  /\ (forall c, is_control c = true -> ~ invalid_char c).
Proof.
  split.
  - unfold validate_filename, invalid_char.
    rewrite <- search_Some_iff.
    destruct (dataproperty.is_empty_string name).
    + split; [intros [m Hm]; discriminate | intros [? _]; discriminate].
    + destruct (re.search __INVALID_PATH_CHARS name) as [m|].
      * split; [intros _; split; eauto | intros _; eauto].
      * split; [intros [m Hm]; discriminate | intros [_ [m Hm]]; discriminate].
  - intros c Hc Hin. unfold is_control in Hc.
    unfold invalid_char, __INVALID_PATH_CHARS, backslash in Hin. simpl in Hin.
    apply orb_true_iff in Hc as [Hc | Hc];
      [apply N.leb_le in Hc | apply N.eqb_eq in Hc]; lia.
Qed.

Lemma invalid_char_error_iff_witness :
  (exists m, validate_filename (u "a:b") = Raise (ValueError_invalid_char m))
  /\ ~ invalid_char 0x1F.
Proof.
  destruct (invalid_char_error_iff (u "a:b")) as [[_ Hback] Hctl].
  split.
  - apply Hback. split; [reflexivity|].
    exists 58. split; simpl; auto. unfold invalid_char. simpl. auto.
  - apply Hctl. reflexivity.
Defined.

(** ** Length *)

(** Claim C4, counterexample.  With the bound 255, a name of 255 + 1 letters
    validates: no length is refused. *)
Lemma long_name_accepted :
  List.length (repeat 97 256) = (255 + 1)%nat
  /\ validate_filename (repeat 97 256) = Return tt.
Proof. split; vm_compute; reflexivity. Qed.

(** Claim C4, amended: [validate_filename] knows no length bound.  Whatever
    [max_len] is, a name of exactly [max_len] code points and a name of
    [max_len + 1] code points both pass when their content is legal (not
    blank, none of the eight invalid characters). *)
Theorem validate_filename_no_length_bound (max_len : nat) (name : str) :
  List.length name = max_len \/ List.length name = S max_len ->
  dataproperty.is_empty_string name = false ->
  (forall c, In c name -> ~ invalid_char c) ->
  validate_filename name = Return tt.
Proof.
  intros _ Hne Hok. apply validate_filename_Return. now split.
Qed.

Lemma validate_filename_no_length_bound_witness :
  validate_filename (repeat 97 255) = Return tt
  /\ validate_filename (repeat 97 256) = Return tt.
Proof.
  assert (Hok : forall n c, In c (repeat 97 n) -> ~ invalid_char c).
  { intros n c Hc. apply repeat_spec in Hc. subst c.
    unfold invalid_char. simpl. intuition discriminate. }
  split; apply (@validate_filename_no_length_bound 255).
  - left. apply repeat_length.
  - vm_compute. reflexivity.
  - apply Hok.
  - right. apply repeat_length.
  - vm_compute. reflexivity.
  - apply Hok.
Defined.

(** ** Reserved names *)

(** Claim C5, counterexample.  [validate_filename] accepts ["con"], and
    [sanitize_filename] returns it as it is, not ["con_"]. *)
Lemma reserved_name_accepted :
  validate_filename (u "con") = Return tt
  /\ sanitize_filename (u "con") default_replacement_text = Return (u "con")
  /\ u "con" <> u "con_".
Proof. repeat split; try reflexivity; discriminate. Qed.

(** Claim C5, amended: the module has no notion of a reserved name.
    [validate_filename] accepts ["con"], ["CON"] and ["Con.txt"], and
    [sanitize_filename] returns each of them unchanged. *)
Theorem reserved_names_are_ordinary :
  validate_filename (u "con") = Return tt
  /\ validate_filename (u "CON") = Return tt
  /\ validate_filename (u "Con.txt") = Return tt
  /\ sanitize_filename (u "con") default_replacement_text = Return (u "con")
  /\ sanitize_filename (u "CON") default_replacement_text = Return (u "CON")
  /\ sanitize_filename (u "Con.txt") default_replacement_text
     = Return (u "Con.txt").
Proof. repeat split. Qed.

(** ** What the invalid-character error reports *)

(** Claim C6, counterexample.  The name ["a:b*c"] holds two invalid
    characters; the error carries the colon only, the asterisk is not in
    it. *)
Lemma only_first_char_reported :
  validate_filename (u "a:b*c") = Raise (ValueError_invalid_char (u ":"))
  /\ In 42 (u "a:b*c")
  /\ invalid_char 42
  /\ ~ In 42 (u ":").
Proof.
  repeat split; simpl; auto.
  - unfold invalid_char. simpl. auto.
  - intros [H | []]. discriminate.
Qed.

(** Claim C6, amended: whenever [validate_filename] rejects a name for an
    invalid character, the error carries one character, the leftmost invalid
    character of the name (what it is, not its position). *)
Theorem invalid_char_error_leftmost (name m : str) :
  validate_filename name = Raise (ValueError_invalid_char m) ->
  exists pre c post,
    name = pre ++ c :: post /\ m = [c] /\ invalid_char c
    /\ (forall d, In d pre -> ~ invalid_char d).
Proof.
  unfold validate_filename.
  destruct (dataproperty.is_empty_string name); [discriminate|].
  destruct (re.search __INVALID_PATH_CHARS name) as [m'|] eqn:E;
    [|discriminate].
  intros [= <-]. exact (search_Some _ _ E).
Qed.

Lemma invalid_char_error_leftmost_witness :
  exists pre c post,
    u "a:b*c" = pre ++ c :: post /\ u ":" = [c] /\ invalid_char c
    /\ (forall d, In d pre -> ~ invalid_char d).
Proof.
  apply (@invalid_char_error_leftmost (u "a:b*c") (u ":")).
  vm_compute. reflexivity.
Defined.

(** ** The empty name *)

(** Claim C7: [validate_filename] applied to the empty text fails with the
    null-name error, [ValueError("null path")], and with no other. *)
Theorem empty_name_rejected :
  validate_filename (u "") = Raise ValueError_null_path.
Proof. reflexivity. Qed.

(** ** Replacement *)

(** With a replacement text that holds no backslash, every invalid character
    of the trimmed name is replaced by the replacement text, one code point
    at a time, and every other code point is kept. *)
Lemma sanitize_filename_replaces (filename replacement_text : str) :
  ~ In backslash replacement_text ->
  sanitize_filename filename replacement_text
  = Return (flat_map (fun c => if re.in_class __INVALID_PATH_CHARS c
                               then replacement_text else [c])
              (Py.strip filename)).
Proof. apply sanitize_filename_literal. Qed.

Example sanitize_A_colon_B :
  sanitize_filename (u "A:B") (u "-") = Return (u "A-B").
Proof. reflexivity. Qed.

(** Claim C8: [sanitize_filename("A:B", replacement_text="-")] returns
    ["A-B"], and every invalid character is to be replaced by the replacement
    text.  The first half holds.  The second half breaks on a replacement
    text with a backslash, which [re] expands as a template: with the
    replacement text backslash-g-<0> the colon of ["A:B"] is replaced by
    itself and the name comes back with its invalid character, and with a
    lone backslash the call raises. *)
Theorem sanitize_filename_expands_template :
  sanitize_filename (u "A:B") (u "-") = Return (u "A-B")
  /\ sanitize_filename (u "A:B") (u "\g<0>") = Return (u "A:B")
  /\ sanitize_filename (u "A:B") [backslash] = Raise TemplateError.
Proof. repeat split. Qed.

(** ** When [validate_filename] raises *)

(** Claim C9: [validate_filename] raises if and only if the name is empty or
    blank, or holds one of the eight characters of [__INVALID_PATH_CHARS];
    every other name validates.  Among the names that validate: a name of
    256 code points, the device name ["CON"], a name with a forward slash and
    a name with a control code point. *)
Theorem validate_filename_raises_iff :
  (forall filename,
      ((exists e, validate_filename filename = Raise e)
       <-> (all_space filename \/ exists c, In c filename /\ invalid_char c))
      /\ (validate_filename filename = Return tt
          <-> ~ (all_space filename
                 \/ exists c, In c filename /\ invalid_char c)))
  /\ (forall c, invalid_char c
                <-> c = 92 \/ c = 58 \/ c = 42 \/ c = 63
                    \/ c = 34 \/ c = 60 \/ c = 62 \/ c = 124)
  /\ validate_filename (repeat 97 256) = Return tt
  /\ validate_filename (u "CON") = Return tt
  /\ validate_filename (u "a/b") = Return tt
  /\ validate_filename [97; 0x01; 98] = Return tt.
Proof.
  split; [|split; [|repeat split]].
  - intro filename.
    destruct (dataproperty.is_empty_string filename) eqn:He.
    + assert (Hall : all_space filename) by now apply is_empty_string_spec.
      assert (Hr : validate_filename filename = Raise ValueError_null_path).
      { unfold validate_filename. now rewrite He. }
      rewrite Hr. split; split; try discriminate; eauto.
      intro Hn. exfalso. apply Hn. now left.
    + assert (Hns : ~ all_space filename).
      { intro Hall. apply is_empty_string_spec in Hall. congruence. }
      split; split.
      * intros [e Hraise]. right.
        apply search_Some_iff.
        unfold validate_filename in Hraise. rewrite He in Hraise.
        destruct (re.search __INVALID_PATH_CHARS filename) as [m|];
          [eauto | discriminate].
      * intros [Hall | [c [Hc Hi]]]; [contradiction|].
        destruct (validate_filename filename) as [[]|e] eqn:Hv; [|eauto].
        exfalso. apply validate_filename_Return in Hv as [_ Hv].
        exact (Hv c Hc Hi).
      * intros Hv [Hall | [c [Hc Hi]]]; [contradiction|].
        apply validate_filename_Return in Hv as [_ Hv]. exact (Hv c Hc Hi).
      * intro Hn. apply validate_filename_Return. split; [exact He|].
        intros c Hc Hi. apply Hn. right. eauto.
  - intro c. unfold invalid_char, __INVALID_PATH_CHARS, backslash. simpl.
    intuition congruence.
Qed.

Lemma validate_filename_raises_iff_witness :
  (exists e, validate_filename (u "a:b") = Raise e)
  /\ validate_filename (u "a/b") = Return tt.
Proof.
  destruct validate_filename_raises_iff as [Hall _].
  split.
  - apply (proj1 (Hall (u "a:b"))). right.
    exists 58. split; [simpl; auto | unfold invalid_char; simpl; auto].
  - apply (proj2 (Hall (u "a/b"))). intros [Hs | [c [Hc Hi]]].
    + specialize (Hs 97 (or_introl eq_refl)). discriminate Hs.
    + unfold invalid_char in Hi. simpl in Hc, Hi.
      destruct Hc as [<- | [<- | [<- | []]]];
        repeat (destruct Hi as [Hi | Hi]; [discriminate Hi|]); exact Hi.
Defined.

(** ** What [sanitize_filename] returns *)

(** Claim C10: for every name and every replacement text that holds none of
    the eight characters of [__INVALID_PATH_CHARS], [sanitize_filename]
    returns a text, and that text holds none of the eight characters. *)
Theorem sanitize_filename_clean (filename replacement_text : str) :
  (forall c, In c replacement_text -> ~ invalid_char c) ->
  exists y,
    sanitize_filename filename replacement_text = Return y
    /\ (forall c, In c y -> ~ invalid_char c).
Proof.
  intro Hr.
  assert (Hb : ~ In backslash replacement_text).
  { intro H. apply (Hr _ H). unfold invalid_char, backslash. simpl. auto. }
  eexists. split; [now apply sanitize_filename_literal|].
  intros c Hc. apply replace_each_In in Hc as [[_ Hc] | Hc]; auto.
Qed.

Lemma sanitize_filename_clean_witness :
  exists y,
    sanitize_filename (u " a:b|c ") (u "_") = Return y
    /\ (forall c, In c y -> ~ invalid_char c).
Proof.
  apply sanitize_filename_clean.
  intros c [<- | []]. unfold invalid_char. simpl. intuition discriminate.
Defined.

(** * Further properties *)

(** ** More on stripping *)

Section StripPad.

Import Py.

Lemma all_space_app (a b : str) :
  all_space (a ++ b) <-> all_space a /\ all_space b.
Proof.
  unfold all_space. split.
  - intro H. split; intros c Hc; apply H, in_or_app; auto.
  - intros [Ha Hb] c Hc. apply in_app_or in Hc as [Hc | Hc]; auto.
Qed.

Lemma all_space_rev (s : str) : all_space s -> all_space (rev s).
Proof. intros H c Hc. apply H. now apply in_rev. Qed.

Lemma lstrip_app_space (pre s : str) :
  all_space pre -> lstrip (pre ++ s) = lstrip s.
Proof.
  induction pre as [|c pre IH]; simpl; intro H; [reflexivity|].
  rewrite (H c (or_introl eq_refl)). apply IH.
  intros d Hd. apply H. now right.
Qed.

Lemma lstrip_app_keep (s t : str) :
  lstrip s <> [] -> lstrip (s ++ t) = lstrip s ++ t.
Proof.
  induction s as [|c s IH]; simpl; [congruence|].
  destruct (isspace c); auto.
Qed.

Lemma rstrip_app_space (s post : str) :
  all_space post -> rstrip (s ++ post) = rstrip s.
Proof.
  intro H. unfold rstrip. rewrite rev_app_distr.
  now rewrite lstrip_app_space by now apply all_space_rev.
Qed.

Lemma rstrip_split (s : str) :
  exists post, s = rstrip s ++ post /\ all_space post.
Proof.
  destruct (lstrip_split (rev s)) as [p [Heq Hp]].
  exists (rev p). split; [|now apply all_space_rev].
  unfold rstrip. rewrite <- rev_app_distr, <- Heq. symmetry.
  apply rev_involutive.
Qed.

(** The stripped text sits inside the text, between two blank ends. *)
Lemma strip_split (s : str) :
  exists pre post,
    s = pre ++ strip s ++ post /\ all_space pre /\ all_space post.
Proof.
  destruct (lstrip_split s) as [pre [Hs Hpre]].
  destruct (rstrip_split (lstrip s)) as [post [Hl Hpost]].
  exists pre, post. unfold strip. rewrite <- Hl. auto.
Qed.

(** Blank ends do not change what [strip] returns. *)
Lemma strip_pad (pre s post : str) :
  all_space pre -> all_space post -> strip (pre ++ s ++ post) = strip s.
Proof.
  intros Hpre Hpost. unfold strip. rewrite lstrip_app_space by exact Hpre.
  destruct (lstrip s) as [|c t] eqn:E.
  - replace (lstrip (s ++ post)) with (@nil codepoint); [reflexivity|].
    symmetry. apply lstrip_nil_iff, all_space_app. split; [|exact Hpost].
    now apply lstrip_nil_iff.
  - rewrite lstrip_app_keep by (rewrite E; discriminate).
    rewrite E. now apply rstrip_app_space.
Qed.

Lemma strip_idem (s : str) : strip (strip s) = strip s.
Proof.
  destruct (strip_split s) as (pre & post & Heq & Hpre & Hpost).
  rewrite Heq at 2. symmetry. now apply strip_pad.
Qed.

Lemma strip_length (s : str) : (List.length (strip s) <= List.length s)%nat.
Proof.
  destruct (strip_split s) as (pre & post & Heq & _).
  rewrite Heq at 2. rewrite !length_app. lia.
Qed.

(** A text as long as its stripped form is its stripped form. *)
Lemma strip_same_length (s : str) :
  List.length (strip s) = List.length s -> strip s = s.
Proof.
  destruct (strip_split s) as (pre & post & Heq & _). intro Hlen.
  rewrite Heq in Hlen at 2. rewrite !length_app in Hlen.
  destruct pre; [|simpl in Hlen; lia].
  destruct post; [|simpl in Hlen; lia].
  simpl in Heq. now rewrite app_nil_r in Heq.
Qed.

End StripPad.

(** ** More on classes, search and replacement *)

Lemma invalid_not_space (c : codepoint) :
  invalid_char c -> Py.isspace c = false.
Proof.
  unfold invalid_char, __INVALID_PATH_CHARS, backslash. simpl.
  intros [<- | [<- | [<- | [<- | [<- | [<- | [<- | [<- | []]]]]]]]];
    reflexivity.
Qed.

Lemma all_space_no_invalid (s : str) :
  all_space s -> forall c, In c s -> ~ invalid_char c.
Proof.
  intros Hs c Hc Hi. apply invalid_not_space in Hi.
  rewrite (Hs c Hc) in Hi. discriminate.
Qed.

Section CharClassMore.

Variable chars : str.

Lemma search_app (a b : str) :
  re.search chars (a ++ b)
  = match re.search chars a with
    | Some m => Some m
    | None => re.search chars b
    end.
Proof.
  induction a as [|c a IH]; simpl; [reflexivity|].
  now destruct (re.in_class chars c).
Qed.

(** A replacement by the empty text deletes the members of the class. *)
Lemma replace_each_delete (s : str) :
  re.replace_each chars (fun _ => []) s
  = filter (fun c => negb (re.in_class chars c)) s.
Proof.
  unfold re.replace_each.
  induction s as [|c s IH]; simpl; [reflexivity|].
  destruct (re.in_class chars c); simpl; now rewrite IH.
Qed.

Lemma replace_each_length (r s : str) :
  (List.length (re.replace_each chars (fun _ => r) s) + count_in chars s
   = List.length s + count_in chars s * List.length r)%nat.
Proof.
  unfold re.replace_each, count_in.
  induction s as [|c s IH]; simpl; [reflexivity|].
  destruct (re.in_class chars c); simpl; rewrite ?length_app; simpl; lia.
Qed.

(** A code point outside the class stays, whatever replaces the others. *)
Lemma replace_each_keeps (f : codepoint -> str) (s : str) (c : codepoint) :
  In c s -> ~ In c chars -> In c (re.replace_each chars f s).
Proof.
  intros Hs Hc. unfold re.replace_each. apply in_flat_map.
  exists c. split; [exact Hs|].
  rewrite (proj2 (in_class_not_In chars c) Hc). now left.
Qed.

Lemma replace_each_nil_iff (s : str) :
  re.replace_each chars (fun _ => []) s = []
  <-> (forall c, In c s -> In c chars).
Proof.
  unfold re.replace_each.
  induction s as [|c s IH]; simpl.
  - split; [intros _ ? [] | reflexivity].
  - destruct (re.in_class chars c) eqn:E; simpl.
    + rewrite IH. apply in_class_In in E. split.
      * intros H d [<- | Hd]; auto.
      * intros H d Hd. apply H. now right.
    + split; [discriminate|]. intro H.
      apply in_class_not_In in E. now destruct (E (H c (or_introl eq_refl))).
Qed.

(** What [sub] returns is the text with the members of the class replaced;
    whether it raises depends on the replacement text alone. *)
Lemma sub_Return (repl s y : str) :
  re.sub chars repl s = Return y ->
  exists f, y = re.replace_each chars f s.
Proof.
  unfold re.sub. destruct (existsb (N.eqb backslash) repl).
  - destruct (re.parse_template repl) as [tpl|]; [|discriminate].
    intros [= <-]. now exists (re.expand tpl).
  - intros [= <-]. now exists (fun _ => repl).
Qed.

Lemma sub_Raise (repl s : str) (e : exn) :
  re.sub chars repl s = Raise e ->
  forall chars' s', re.sub chars' repl s' = Raise e.
Proof.
  unfold re.sub. destruct (existsb (N.eqb backslash) repl); [|discriminate].
  destruct (re.parse_template repl); [discriminate|]. auto.
Qed.

Lemma sub_Return_any (repl s y : str) :
  re.sub chars repl s = Return y ->
  forall chars' s', exists y', re.sub chars' repl s' = Return y'.
Proof.
  unfold re.sub. destruct (existsb (N.eqb backslash) repl).
  - destruct (re.parse_template repl); [|discriminate]. eauto.
  - eauto.
Qed.

End CharClassMore.

(** Two literal replacements in a row, the second over another class, are one
    replacement over both classes when the replacement text holds no member
    of the second class. *)
Lemma replace_each_twice (A B r s : str) :
  (forall c, In c r -> ~ In c B) ->
  re.replace_each B (fun _ => r) (re.replace_each A (fun _ => r) s)
  = re.replace_each (A ++ B) (fun _ => r) s.
Proof.
  intro Hr. induction s as [|c s IH]; [reflexivity|].
  change (c :: s) with ([c] ++ s). rewrite !replace_each_app, IH. f_equal.
  assert (Hc : re.in_class (A ++ B) c = re.in_class A c || re.in_class B c)
    by apply existsb_app.
  unfold re.replace_each at 2 3. simpl. rewrite !app_nil_r, Hc.
  destruct (re.in_class A c); simpl.
  - now apply replace_each_id.
  - unfold re.replace_each. simpl. now rewrite app_nil_r.
Qed.

Lemma is_empty_string_false_app (a b : str) :
  dataproperty.is_empty_string a = false ->
  dataproperty.is_empty_string (a ++ b) = false.
Proof.
  intro Ha. apply not_true_is_false. intro Hab.
  apply is_empty_string_spec, all_space_app in Hab as [Hs _].
  apply is_empty_string_spec in Hs. congruence.
Qed.

Lemma is_empty_string_strip (s : str) :
  dataproperty.is_empty_string (Py.strip s) = dataproperty.is_empty_string s.
Proof. unfold dataproperty.is_empty_string. now rewrite strip_idem. Qed.

Lemma search_invalid_strip (s : str) :
  re.search __INVALID_PATH_CHARS (Py.strip s)
  = re.search __INVALID_PATH_CHARS s.
Proof.
  destruct (strip_split s) as (pre & post & Heq & Hpre & Hpost).
  assert (Hn : forall t, all_space t -> re.search __INVALID_PATH_CHARS t = None).
  { intros t Ht. apply search_None. now apply all_space_no_invalid. }
  rewrite Heq at 2. rewrite !search_app, (Hn pre Hpre), (Hn post Hpost).
  now destruct (re.search __INVALID_PATH_CHARS (Py.strip s)).
Qed.

(** ** Validation and surrounding whitespace *)

(** Property X1: whitespace around a name does not count for
    [validate_filename].  The stripped name gets the outcome of the name,
    the same error with the same reported character included, and so does
    the name between any two blank texts. *)
Theorem validate_filename_strip (name : str) :
  validate_filename (Py.strip name) = validate_filename name
  /\ (forall pre post,
         all_space pre -> all_space post ->
         validate_filename (pre ++ name ++ post) = validate_filename name).
Proof.
  assert (H : forall s, validate_filename (Py.strip s) = validate_filename s).
  { intro s. unfold validate_filename.
    now rewrite is_empty_string_strip, search_invalid_strip. }
  split; [apply H|].
  intros pre post Hpre Hpost.
  rewrite <- (H (pre ++ name ++ post)), <- (H name).
  now rewrite strip_pad.
Qed.

Lemma validate_filename_strip_witness :
  validate_filename (u "  a:b ") = Raise (ValueError_invalid_char (u ":")).
Proof.
  destruct (validate_filename_strip (u "a:b")) as [_ H].
  apply (H (u "  ") (u " ")); intros c Hc; simpl in Hc;
    repeat (destruct Hc as [<- | Hc]; [reflexivity|]); destruct Hc.
Defined.

(** Property X2: [validate_filename] raises the null-path error exactly for
    the blank names, those whose every code point is whitespace (the empty
    name among them).  A blank name holds no invalid character, so the two
    errors never compete. *)
Theorem null_path_iff_blank (name : str) :
  (validate_filename name = Raise ValueError_null_path <-> all_space name)
  /\ (all_space name -> forall c, In c name -> ~ invalid_char c).
Proof.
  split; [|apply all_space_no_invalid].
  rewrite <- is_empty_string_spec. unfold validate_filename.
  destruct (dataproperty.is_empty_string name).
  - split; reflexivity.
  - destruct (re.search __INVALID_PATH_CHARS name); split; discriminate.
Qed.

Lemma null_path_iff_blank_witness :
  validate_filename [9; 32; 10] = Raise ValueError_null_path.
Proof.
  apply (proj1 (null_path_iff_blank [9; 32; 10])).
  intros c Hc. simpl in Hc.
  repeat (destruct Hc as [<- | Hc]; [reflexivity|]). destruct Hc.
Defined.

(** Property X3: valid names are closed under concatenation: when two names
    validate, so does the one followed by the other. *)
Theorem validate_filename_app (a b : str) :
  validate_filename a = Return tt ->
  validate_filename b = Return tt ->
  validate_filename (a ++ b) = Return tt.
Proof.
  intros Ha Hb.
  apply validate_filename_Return in Ha as [Hea Ha].
  apply validate_filename_Return in Hb as [_ Hb].
  apply validate_filename_Return. split.
  - now apply is_empty_string_false_app.
  - intros c Hc. apply in_app_or in Hc as [Hc | Hc]; auto.
Qed.

Lemma validate_filename_app_witness :
  validate_filename (u "report" ++ u ".txt") = Return tt.
Proof. apply validate_filename_app; reflexivity. Defined.

(** ** Sanitization and surrounding whitespace *)

(** Property X4: whitespace around the input never reaches
    [sanitize_filename]'s work: for every replacement text, the stripped
    input and the input between any two blank texts give the outcome of the
    input itself. *)
Theorem sanitize_filename_strip (filename replacement_text : str) :
  sanitize_filename (Py.strip filename) replacement_text
  = sanitize_filename filename replacement_text
  /\ (forall pre post,
         all_space pre -> all_space post ->
         sanitize_filename (pre ++ filename ++ post) replacement_text
         = sanitize_filename filename replacement_text).
Proof.
  unfold sanitize_filename. split.
  - now rewrite strip_idem.
  - intros pre post Hpre Hpost. now rewrite strip_pad.
Qed.

Lemma sanitize_filename_strip_witness :
  sanitize_filename (u " " ++ u "A:B" ++ u "  ") (u "-") = Return (u "A-B").
Proof.
  destruct (sanitize_filename_strip (u "A:B") (u "-")) as [_ H].
  rewrite (H (u " ") (u "  ")); [reflexivity | |]; intros c Hc; simpl in Hc;
    repeat (destruct Hc as [<- | Hc]; [reflexivity|]); destruct Hc.
Defined.

(** ** Names that sanitization leaves alone *)

(** Property X5: with the default replacement text, [sanitize_filename]
    returns its input unchanged exactly when the input has no leading or
    trailing whitespace and holds no invalid character. *)
Theorem sanitize_filename_fixpoint (filename : str) :
  sanitize_filename filename default_replacement_text = Return filename
  <-> (Py.strip filename = filename
       /\ (forall c, In c filename -> ~ invalid_char c)).
Proof.
  rewrite sanitize_filename_default. split.
  - intros [= H].
    assert (Hclean : forall c, In c filename -> ~ invalid_char c).
    { intros c Hc. rewrite <- H in Hc.
      apply replace_each_In in Hc as [[_ Hc] | []]. exact Hc. }
    split; [|exact Hclean].
    apply strip_same_length. apply Nat.le_antisymm; [apply strip_length|].
    rewrite <- H at 1. rewrite replace_each_delete. apply filter_length_le.
  - intros [Hs Hc]. rewrite Hs. f_equal. now apply replace_each_id.
Qed.

Lemma sanitize_filename_fixpoint_witness :
  sanitize_filename (u "a b.txt") default_replacement_text
  = Return (u "a b.txt").
Proof.
  apply (proj2 (sanitize_filename_fixpoint (u "a b.txt"))).
  split; [reflexivity|].
  intros c Hc Hi. apply in_class_In in Hi.
  simpl in Hc.
  repeat (destruct Hc as [<- | Hc]; [discriminate Hi|]). destruct Hc.
Defined.

(** Property X6: a name that [validate_filename] accepts is only trimmed by
    [sanitize_filename] (default replacement text), and the trimmed name is
    accepted as well. *)
Theorem sanitize_valid_name (filename : str) :
  validate_filename filename = Return tt ->
  sanitize_filename filename default_replacement_text
  = Return (Py.strip filename)
  /\ validate_filename (Py.strip filename) = Return tt.
Proof.
  intro Hv. split.
  - apply validate_filename_Return in Hv as [_ Hc].
    rewrite sanitize_filename_default. f_equal.
    apply replace_each_id. intros c Hin. apply Hc. now apply strip_incl.
  - unfold validate_filename in *.
    now rewrite is_empty_string_strip, search_invalid_strip.
Qed.

Lemma sanitize_valid_name_witness :
  sanitize_filename (u " a.txt ") default_replacement_text
  = Return (u "a.txt").
Proof. apply (sanitize_valid_name (u " a.txt ")). reflexivity. Defined.

(** ** Size and content of the sanitized name *)

(** Property X7: the length of the sanitized name.  With a replacement text
    without backslash, each of the [n] invalid characters of the stripped
    input gives way to the replacement text, so the result has the length of
    the stripped input less [n] plus [n] times the length of the replacement
    text; with a replacement text of at most one code point the result is
    never longer than the input. *)
Theorem sanitize_filename_length (filename replacement_text : str) :
  ~ In backslash replacement_text ->
  exists y,
    sanitize_filename filename replacement_text = Return y
    /\ (List.length y + count_in __INVALID_PATH_CHARS (Py.strip filename)
        = List.length (Py.strip filename)
          + count_in __INVALID_PATH_CHARS (Py.strip filename)
            * List.length replacement_text)%nat
    /\ ((List.length replacement_text <= 1)%nat ->
        (List.length y <= List.length filename)%nat).
Proof.
  intro Hb. eexists. split; [now apply sanitize_filename_literal|].
  assert (Hlen := replace_each_length __INVALID_PATH_CHARS replacement_text
                    (Py.strip filename)).
  split; [exact Hlen|].
  intro Hr. assert (Hs := strip_length filename). nia.
Qed.

Lemma sanitize_filename_length_witness :
  exists y,
    sanitize_filename (u " a:b*c ") (u "--") = Return y
    /\ (List.length y + 2 = 5 + 2 * 2)%nat.
Proof.
  destruct (@sanitize_filename_length (u " a:b*c ") (u "--"))
    as [y [Hy [Hl _]]].
  - intros [H | [H | []]]; discriminate H.
  - exists y. split; [exact Hy | exact Hl].
Defined.

(** Property X8: the empty result.  With the default replacement text
    [sanitize_filename] returns the empty text, without raising, exactly when
    the stripped input holds invalid characters only (a blank input among
    those). *)
Theorem sanitize_filename_empty_iff (filename : str) :
  sanitize_filename filename default_replacement_text = Return []
  <-> (forall c, In c (Py.strip filename) -> invalid_char c).
Proof.
  rewrite sanitize_filename_default. unfold invalid_char.
  rewrite <- replace_each_nil_iff. split.
  - now intros [= ->].
  - now intros ->.
Qed.

Lemma sanitize_filename_empty_iff_witness :
  sanitize_filename (u " :*? ") default_replacement_text = Return [].
Proof.
  apply (proj2 (sanitize_filename_empty_iff (u " :*? "))).
  intros c Hc. apply in_class_In.
  vm_compute in Hc.
  repeat (destruct Hc as [<- | Hc]; [reflexivity|]). destruct Hc.
Defined.

(** Property X9: sanitize then validate, for any clean replacement text.
    When the replacement text holds none of the eight invalid characters,
    [sanitize_filename] returns a text, and [validate_filename] accepts that
    text unless it is blank. *)
Theorem sanitize_with_then_validate (filename replacement_text : str) :
  (forall c, In c replacement_text -> ~ invalid_char c) ->
  exists y,
    sanitize_filename filename replacement_text = Return y
    /\ (dataproperty.is_empty_string y = false ->
        validate_filename y = Return tt).
Proof.
  intro Hr.
  assert (Hb : ~ In backslash replacement_text).
  { intro H. apply (Hr _ H). now left. }
  eexists. split; [now apply sanitize_filename_literal|].
  intro Hy. apply validate_filename_Return. split; [exact Hy|].
  intros c Hc. apply replace_each_In in Hc as [[_ Hc] | Hc]; auto.
Qed.

Lemma sanitize_with_then_validate_witness :
  exists y,
    sanitize_filename (u "a<b>") (u "_") = Return y
    /\ validate_filename y = Return tt.
Proof.
  destruct (@sanitize_with_then_validate (u "a<b>") (u "_")) as [y [Hy Hv]].
  - intros c [<- | []] Hi. apply in_class_In in Hi. discriminate Hi.
  - exists y. split; [exact Hy|]. apply Hv.
    vm_compute in Hy. injection Hy as <-. reflexivity.
Defined.

(** Property X10: no valid character is lost.  Whatever the replacement text,
    when [sanitize_filename] returns, every code point of the stripped input
    that is not an invalid character is in the result. *)
Theorem sanitize_filename_keeps_valid
  (filename replacement_text y : str) (c : codepoint) :
  sanitize_filename filename replacement_text = Return y ->
  In c (Py.strip filename) -> ~ invalid_char c -> In c y.
Proof.
  unfold sanitize_filename. intros Hy Hc Hi.
  apply sub_Return in Hy as [f ->]. now apply replace_each_keeps.
Qed.

Lemma sanitize_filename_keeps_valid_witness :
  In 66 (u "A-B").
Proof.
  apply (@sanitize_filename_keeps_valid (u " A:B ") (u "-") (u "A-B") 66).
  - reflexivity.
  - vm_compute. auto.
  - intro Hi. apply in_class_In in Hi. discriminate Hi.
Defined.

(** ** [replace_symbol] *)

(** Property X11: [replace_symbol] is one pass over both classes.  When the
    replacement text holds neither a backslash nor one of the seven symbol
    characters, the two substitutions amount to a single one: every code
    point of the stripped input that is an invalid character or a symbol
    character is replaced by the replacement text, the others are kept. *)
Theorem replace_symbol_one_pass (filename replacement_text : str) :
  ~ In backslash replacement_text ->
  (forall c, In c replacement_text -> ~ symbol_char c) ->
  replace_symbol filename replacement_text
  = Return (re.replace_each (__INVALID_PATH_CHARS ++ symbol_chars)
              (fun _ => replacement_text) (Py.strip filename)).
Proof.
  intros Hb Hs. unfold replace_symbol.
  rewrite sanitize_filename_literal by exact Hb. simpl.
  rewrite sub_literal by exact Hb. f_equal.
  now apply replace_each_twice.
Qed.

Lemma replace_symbol_one_pass_witness :
  replace_symbol (u " a:b (1).txt ") (u "_") = Return (u "a_b__1__txt").
Proof.
  rewrite replace_symbol_one_pass; [reflexivity | |].
  - intros [H | []]. discriminate H.
  - intros c [<- | []] Hi. apply in_class_In in Hi. discriminate Hi.
Defined.

(** Property X12: what [replace_symbol] returns.  When the replacement text
    holds neither an invalid character nor a symbol character,
    [replace_symbol] returns a text that holds none of the eight invalid
    characters and none of the seven symbol characters, and
    [validate_filename] accepts that text unless it is blank. *)
Theorem replace_symbol_clean (filename replacement_text : str) :
  (forall c, In c replacement_text -> ~ invalid_char c /\ ~ symbol_char c) ->
  exists y,
    replace_symbol filename replacement_text = Return y
    /\ (forall c, In c y -> ~ invalid_char c /\ ~ symbol_char c)
    /\ (dataproperty.is_empty_string y = false ->
        validate_filename y = Return tt).
Proof.
  intro Hr.
  assert (Hb : ~ In backslash replacement_text).
  { intro H. apply (proj1 (Hr _ H)). now left. }
  assert (Hs : forall c, In c replacement_text -> ~ symbol_char c).
  { intros c Hc. apply (Hr c Hc). }
  eexists. split; [unfold replace_symbol|].
  { rewrite sanitize_filename_literal by exact Hb. simpl.
    rewrite sub_literal by exact Hb. rewrite replace_each_twice by exact Hs.
    reflexivity. }
  assert (Hclean : forall c,
             In c (re.replace_each (__INVALID_PATH_CHARS ++ symbol_chars)
                     (fun _ => replacement_text) (Py.strip filename)) ->
             ~ invalid_char c /\ ~ symbol_char c).
  { intros c Hc. apply replace_each_In in Hc as [[_ Hc] | Hc]; [|auto].
    unfold invalid_char, symbol_char.
    split; intro H; apply Hc, in_or_app; auto. }
  split; [exact Hclean|].
  intro Hy. apply validate_filename_Return. split; [exact Hy|].
  intros c Hc. apply (Hclean c Hc).
Qed.

Lemma replace_symbol_clean_witness :
  exists y,
    replace_symbol (u "a/b: c.txt") (u "-") = Return y
    /\ (forall c, In c y -> ~ invalid_char c /\ ~ symbol_char c).
Proof.
  destruct (@replace_symbol_clean (u "a/b: c.txt") (u "-")) as [y [Hy [Hc _]]].
  - intros c [<- | []].
    split; intro Hi; apply in_class_In in Hi; discriminate Hi.
  - exists y. split; [exact Hy | exact Hc].
Defined.

(** Property X13: [replace_symbol] raises exactly when [sanitize_filename]
    raises on the same arguments, with the same exception; and whether
    [sanitize_filename] raises is a matter of the replacement text alone,
    not of the name. *)
Theorem replace_symbol_raises_iff
  (filename replacement_text : str) (e : exn) :
  (replace_symbol filename replacement_text = Raise e
   <-> sanitize_filename filename replacement_text = Raise e)
  /\ (sanitize_filename filename replacement_text = Raise e ->
      forall filename',
        sanitize_filename filename' replacement_text = Raise e).
Proof.
  split.
  - unfold replace_symbol.
    destruct (sanitize_filename filename replacement_text) as [y|e'] eqn:E;
      simpl; [|reflexivity].
    unfold sanitize_filename in E.
    destruct (sub_Return_any _ _ _ E symbol_chars y) as [y' Hy'].
    rewrite Hy'. split; discriminate.
  - unfold sanitize_filename. intros H filename'.
    now apply (sub_Raise _ _ _ H).
Qed.

Lemma replace_symbol_raises_iff_witness :
  replace_symbol (u "a.txt") [backslash] = Raise TemplateError
  /\ sanitize_filename (u "other") [backslash] = Raise TemplateError.
Proof.
  destruct (@replace_symbol_raises_iff (u "a.txt") [backslash] TemplateError)
    as [Hiff Hany].
  split; [apply Hiff | apply Hany]; reflexivity.
Defined.

(** ** Replacement texts that name the match *)

(** Property X14: a replacement template that names group 0 keeps the
    invalid characters.  When the parsed replacement text holds a reference
    to the whole match and [sanitize_filename] returns, every code point of
    the stripped input, invalid ones included, is in the result. *)
Theorem sanitize_filename_group0_keeps_all
  (filename replacement_text y : str) (tpl : list re.piece) (c : codepoint) :
  re.parse_template replacement_text = Some tpl ->
  In re.Group0 tpl ->
  sanitize_filename filename replacement_text = Return y ->
  In c (Py.strip filename) -> In c y.
Proof.
  intros Hp Hg Hy Hc. unfold sanitize_filename, re.sub in Hy.
  destruct (existsb (N.eqb backslash) replacement_text) eqn:Eb.
  - rewrite Hp in Hy. injection Hy as <-.
    unfold re.replace_each. apply in_flat_map. exists c. split; [exact Hc|].
    destruct (re.in_class __INVALID_PATH_CHARS c); [|now left].
    unfold re.expand. apply in_flat_map. exists re.Group0.
    split; [exact Hg | now left].
  - exfalso.
    assert (Hb : ~ In backslash replacement_text).
    { intro H. apply not_true_iff_false in Eb. apply Eb.
      apply existsb_exists. exists backslash. split; [exact H|].
      apply N.eqb_refl. }
    rewrite (@parse_template_literal replacement_text Hb) in Hp. injection Hp as <-.
    apply in_map_iff in Hg as [d [Hd _]]. discriminate Hd.
Qed.

Lemma sanitize_filename_group0_keeps_all_witness :
  In 58 (u "A<:>B").
Proof.
  apply (@sanitize_filename_group0_keeps_all
           (u "A:B") (u "<\g<0>>") (u "A<:>B")
           [re.Lit 60; re.Group0; re.Lit 62] 58).
  - reflexivity.
  - simpl. auto.
  - reflexivity.
  - vm_compute. auto.
Defined.
